(** * Loan lifecycle chaincode

    A shallow embedding of [chaincode/chaincode.go] and the properties its
    specification states about it.

    The file holds two Go programs, both [package main]:
    - [LoanContract], written against the [shim] interface: eight entry
      points dispatched by [Invoke], string arguments, an audit history;
    - [SmartContract], written against [contractapi]: typed arguments,
      four entry points, no collateral and no audit history.

    Modelling choices.
    - [float64] is IEEE-754 binary64, which is what Rocq's primitive
      [float] is: subtraction and comparison are the machine's.
    - Go's [int] holds what [strconv.Atoi] returned; no arithmetic is done
      on it, so it is a [Z].
    - A Go [string] is a sequence of bytes: [string].
    - The world state behind [shim.ChaincodeStubInterface] is a finite map
      from keys to byte strings.  [GetState] returns [nil] for a missing
      key; [PutState] replaces the value under the key.  Neither fails
      here: the platform's own failures are not the contract's, and the
      branches of the code that handle them are kept as they are.
    - A Go [error] is its message.
    - The functions of Go's standard library that the chaincode calls
      ([strconv.ParseFloat], [strconv.Atoi], [fmt.Sprintf] with the verb
      [%f], [json.Marshal], [json.Unmarshal]) are not part of the
      repository: they are the fields of a class [Lib], and what the
      proofs need to know about them is the class [LibSpec].  A sample
      instance of both is given for each contract, so that every statement
      can be run on concrete calls. *)

From Stdlib Require Import ZArith String Ascii List Bool Floats Lia.
From stdpp Require Import base tactics option gmap strings pretty.
Import ListNotations.

Local Open Scope string_scope.

(** ** Shared vocabulary *)

(** A Go result [(value, error)]: either the value or the error's message. *)
Inductive res (A : Type) : Type :=
| Ok (a : A)
| Err (err : string).
Arguments Ok {A} a.
Arguments Err {A} err.

Definition is_Ok {A : Type} (r : res A) : bool :=
  match r with Ok _ => true | Err _ => false end.

(** The two calls made on the ledger stub.  [None] is Go's [nil] slice. *)
Definition GetState {bytes : Type} (stub : gmap string bytes) (key : string)
  : res (option bytes) :=
  Ok (stub !! key).

Definition PutState {bytes : Type} (stub : gmap string bytes) (key : string)
  (value : bytes) : res (gmap string bytes) :=
  Ok (<[key := value]> stub).

(** [peer.Response], as built by [shim.Success] and [shim.Error]. *)
Inductive Response (bytes : Type) : Type :=
| shim_Success (payload : option bytes)
| shim_Error (message : string).
Arguments shim_Success {bytes} payload.
Arguments shim_Error {bytes} message.

Definition is_Success {bytes : Type} (r : Response bytes) : bool :=
  match r with shim_Success _ => true | shim_Error _ => false end.

(** The edges of the lifecycle graph
    [Pending -> Approved -> Active -> {Repaid, Defaulted}]. *)
Definition lifecycle_edge (s s' : string) : Prop :=
  (s = "Pending" ∧ s' = "Approved") ∨
  (s = "Approved" ∧ s' = "Active") ∨
  (s = "Active" ∧ s' = "Repaid") ∨
  (s = "Active" ∧ s' = "Defaulted").

(** ** A sample Go library

    Executable stand-ins for the library functions, used to run the
    contracts on concrete calls.  They accept fewer strings than Go does
    (decimal integer literals and the spellings [NaN], [Inf], [+Inf],
    [-Inf]) and agree with Go on those. *)

Definition digit_of (c : ascii) : option Z :=
  let n := Z.of_N (N_of_ascii c) in
  if (48 <=? n)%Z && (n <=? 57)%Z then Some (n - 48)%Z else None.

Fixpoint parse_digits (acc : Z) (s : string) : option Z :=
  match s with
  | EmptyString => Some acc
  | String c s' =>
    match digit_of c with
    | Some d => parse_digits (10 * acc + d)%Z s'
    | None => None
    end
  end.

(** An optional sign and at least one digit: the sign and the magnitude. *)
Definition parse_signed (s : string) : option (bool * Z) :=
  match s with
  | EmptyString => None
  | String c s' =>
    if decide (c = "-"%char) then
      match s' with
      | EmptyString => None
      | _ => m ← parse_digits 0 s'; Some (true, m)
      end
    else if decide (c = "+"%char) then
      match s' with
      | EmptyString => None
      | _ => m ← parse_digits 0 s'; Some (false, m)
      end
    else m ← parse_digits 0 s; Some (false, m)
  end.

(** The binary64 number nearest to a non-negative integer (ties to even). *)
Definition float_of_Z (m : Z) : float :=
  SF2Prim (binary_normalize prec emax m 0 false).

Definition ref_ParseFloat (s : string) : res float :=
  if decide (s = "NaN") then Ok nan
  else if decide (s = "Inf" ∨ s = "+Inf") then Ok infinity
  else if decide (s = "-Inf") then Ok neg_infinity
  else
    match parse_signed s with
    | Some (neg, m) =>
      let x := float_of_Z m in
      if is_infinity x then Err "value out of range"
      else Ok (if neg : bool then (- x)%float else x)
    | None => Err "invalid syntax"
    end.

Definition ref_Atoi (s : string) : res Z :=
  match parse_signed s with
  | Some (neg, m) =>
    let z := if neg : bool then (- m)%Z else m in
    if (- 2 ^ 63 <=? z)%Z && (z <? 2 ^ 63)%Z then Ok z
    else Err "value out of range"
  | None => Err "invalid syntax"
  end.

Fixpoint zeros (k : nat) : string :=
  match k with
  | O => ""
  | S k' => String "0" (zeros k')
  end.

Definition pad6 (n : Z) : string :=
  let s := pretty n in zeros (6 - String.length s) ++ s.

Definition round_half_even (n d : Z) : Z :=
  let q := (n / d)%Z in
  match (2 * (n mod d) ?= d)%Z with
  | Lt => q
  | Gt => (q + 1)%Z
  | Eq => if Z.even q then q else (q + 1)%Z
  end.

(** The verb [%f]: six digits after the point, the exact binary value
    rounded to the nearest millionth, ties to even. *)
Definition ref_Sprintf_f (x : float) : string :=
  match Prim2SF x with
  | S754_nan => "NaN"
  | S754_infinity s => if s then "-Inf" else "+Inf"
  | S754_zero s => (if s then "-" else "") ++ "0.000000"
  | S754_finite s m e =>
    let micro :=
      if (0 <=? e)%Z then (Z.pos m * 2 ^ e * 1000000)%Z
      else round_half_even (Z.pos m * 1000000) (2 ^ (- e)) in
    (if s then "-" else "") ++ pretty (micro / 1000000)%Z ++ "." ++
    pad6 (micro mod 1000000)%Z
  end.

(** ** The first program: [LoanContract] *)

Module LoanContract.

Record Loan : Type := mkLoan {
  LoanID : string;
  BorrowerID : string;
  LenderID : string;
  Amount : float;
  InterestRate : float;
  Duration : Z;
  Status : string;
  DisbursementDate : string;
  RepaymentDue : float;
  RemainingBalance : float;
  Collateral : string;
  Defaulted : bool;
  AuditHistory : list string
}.

(** Field assignments [loan.F = v]. *)
Definition set_LenderID (v : string) (l : Loan) : Loan :=
  mkLoan (LoanID l) (BorrowerID l) v (Amount l) (InterestRate l) (Duration l)
    (Status l) (DisbursementDate l) (RepaymentDue l) (RemainingBalance l)
    (Collateral l) (Defaulted l) (AuditHistory l).

Definition set_Status (v : string) (l : Loan) : Loan :=
  mkLoan (LoanID l) (BorrowerID l) (LenderID l) (Amount l) (InterestRate l)
    (Duration l) v (DisbursementDate l) (RepaymentDue l) (RemainingBalance l)
    (Collateral l) (Defaulted l) (AuditHistory l).

Definition set_DisbursementDate (v : string) (l : Loan) : Loan :=
  mkLoan (LoanID l) (BorrowerID l) (LenderID l) (Amount l) (InterestRate l)
    (Duration l) (Status l) v (RepaymentDue l) (RemainingBalance l)
    (Collateral l) (Defaulted l) (AuditHistory l).

Definition set_RemainingBalance (v : float) (l : Loan) : Loan :=
  mkLoan (LoanID l) (BorrowerID l) (LenderID l) (Amount l) (InterestRate l)
    (Duration l) (Status l) (DisbursementDate l) (RepaymentDue l) v
    (Collateral l) (Defaulted l) (AuditHistory l).

Definition set_Collateral (v : string) (l : Loan) : Loan :=
  mkLoan (LoanID l) (BorrowerID l) (LenderID l) (Amount l) (InterestRate l)
    (Duration l) (Status l) (DisbursementDate l) (RepaymentDue l)
    (RemainingBalance l) v (Defaulted l) (AuditHistory l).

Definition set_Defaulted (v : bool) (l : Loan) : Loan :=
  mkLoan (LoanID l) (BorrowerID l) (LenderID l) (Amount l) (InterestRate l)
    (Duration l) (Status l) (DisbursementDate l) (RepaymentDue l)
    (RemainingBalance l) (Collateral l) v (AuditHistory l).

Definition set_AuditHistory (v : list string) (l : Loan) : Loan :=
  mkLoan (LoanID l) (BorrowerID l) (LenderID l) (Amount l) (InterestRate l)
    (Duration l) (Status l) (DisbursementDate l) (RepaymentDue l)
    (RemainingBalance l) (Collateral l) (Defaulted l) v.

(** Every [float64] field of the record is neither NaN nor infinite. *)
Definition floats_finite (l : Loan) : bool :=
  is_finite (Amount l) && is_finite (InterestRate l) &&
  is_finite (RepaymentDue l) && is_finite (RemainingBalance l).

(** The Go library the contract runs on. *)
Class Lib : Type := {
  bytes : Type;
  (** [strconv.ParseFloat(s, 64)] *)
  strconv_ParseFloat : string → res float;
  (** [strconv.Atoi(s)] *)
  strconv_Atoi : string → res Z;
  (** [fmt.Sprintf("%f", x)] *)
  fmt_Sprintf_f : float → string;
  (** [json.Marshal(loan)] *)
  json_Marshal : Loan → res bytes;
  (** [json.Unmarshal(b, &loan)] on a zero [loan] *)
  json_Unmarshal : bytes → res Loan
}.

(** What Go's [encoding/json] guarantees for this record: encoding fails
    exactly on a NaN or infinite [float64] field, decoding an encoded
    record gives the record back, and no JSON number decodes to NaN or to
    an infinity. *)
Class LibSpec (L : Lib) : Prop := {
  Marshal_finite : ∀ l : Loan, is_Ok (json_Marshal l) = floats_finite l;
  Unmarshal_Marshal :
    ∀ (l : Loan) (b : bytes), json_Marshal l = Ok b → json_Unmarshal b = Ok l;
  Unmarshal_finite :
    ∀ (l : Loan) (b : bytes), json_Unmarshal b = Ok l → floats_finite l = true
}.

Section Contract.
Context {L : Lib}.

Abbreviation World := (gmap string bytes).

(** [func (t *LoanContract) RequestLoan], lines 62-98. *)
Definition RequestLoan (stub : World) (args : list string)
  : Response bytes * World :=
  match args with
  | [loanID; borrowerID; a2; a3] =>
    match strconv_ParseFloat a2 with
    | Err _ => (shim_Error "Invalid loan amount", stub)
    | Ok amount =>
      match strconv_Atoi a3 with
      | Err _ => (shim_Error "Invalid loan duration", stub)
      | Ok duration =>
        let loan :=
          {| LoanID := loanID; BorrowerID := borrowerID; LenderID := "";
             Amount := amount; InterestRate := 0%float; Duration := duration;
             Status := "Pending"; DisbursementDate := "";
             RepaymentDue := 0%float; RemainingBalance := amount;
             Collateral := ""; Defaulted := false; AuditHistory := [] |} in
        match json_Marshal loan with
        | Err _ => (shim_Error "Error marshalling loan object", stub)
        | Ok loanBytes =>
          match PutState stub loanID loanBytes with
          | Err err => (shim_Error ("Failed to request loan: " ++ err), stub)
          | Ok stub' => (shim_Success None, stub')
          end
        end
      end
    end
  | _ => (shim_Error "Incorrect number of arguments. Expected 4", stub)
  end.

(** [func (t *LoanContract) ApproveLoan], lines 101-139. *)
Definition ApproveLoan (stub : World) (args : list string)
  : Response bytes * World :=
  match args with
  | [loanID; lenderID] =>
    match GetState stub loanID with
    | Ok (Some loanBytes) =>
      match json_Unmarshal loanBytes with
      | Err _ => (shim_Error "Error unmarshalling loan object", stub)
      | Ok loan =>
        if decide (Status loan ≠ "Pending")
        then (shim_Error "Loan is not in Pending status", stub)
        else
          let loan := set_LenderID lenderID loan in
          let loan := set_Status "Approved" loan in
          let loan :=
            set_AuditHistory (AuditHistory loan ++ ["Loan Approved"]) loan in
          match json_Marshal loan with
          | Err _ => (shim_Error "Error marshalling loan object", stub)
          | Ok loanBytes =>
            match PutState stub loanID loanBytes with
            | Err err => (shim_Error ("Failed to approve loan: " ++ err), stub)
            | Ok stub' => (shim_Success None, stub')
            end
          end
      end
    | _ => (shim_Error "Loan not found", stub)
    end
  | _ => (shim_Error "Incorrect number of arguments. Expected 2", stub)
  end.

(** [func (t *LoanContract) DisburseLoan], lines 142-180. *)
Definition DisburseLoan (stub : World) (args : list string)
  : Response bytes * World :=
  match args with
  | [loanID; disbursementDate] =>
    match GetState stub loanID with
    | Ok (Some loanBytes) =>
      match json_Unmarshal loanBytes with
      | Err _ => (shim_Error "Error unmarshalling loan object", stub)
      | Ok loan =>
        if decide (Status loan ≠ "Approved")
        then (shim_Error "Loan is not approved", stub)
        else
          let loan := set_Status "Active" loan in
          let loan := set_DisbursementDate disbursementDate loan in
          let loan :=
            set_AuditHistory (AuditHistory loan ++ ["Loan Disbursed"]) loan in
          match json_Marshal loan with
          | Err _ => (shim_Error "Error marshalling loan object", stub)
          | Ok loanBytes =>
            match PutState stub loanID loanBytes with
            | Err err => (shim_Error ("Failed to disburse loan: " ++ err), stub)
            | Ok stub' => (shim_Success None, stub')
            end
          end
      end
    | _ => (shim_Error "Loan not found", stub)
    end
  | _ => (shim_Error "Incorrect number of arguments. Expected 2", stub)
  end.

(** [func (t *LoanContract) RepayLoan], lines 183-227.  The balance is not
    reset when it drops to zero or below: only the status changes. *)
Definition RepayLoan (stub : World) (args : list string)
  : Response bytes * World :=
  match args with
  | [loanID; a1] =>
    match strconv_ParseFloat a1 with
    | Err _ => (shim_Error "Invalid repayment amount", stub)
    | Ok repaymentAmount =>
      match GetState stub loanID with
      | Ok (Some loanBytes) =>
        match json_Unmarshal loanBytes with
        | Err _ => (shim_Error "Error unmarshalling loan object", stub)
        | Ok loan =>
          if decide (Status loan ≠ "Active")
          then (shim_Error "Loan is not active", stub)
          else
            let loan :=
              set_RemainingBalance
                (RemainingBalance loan - repaymentAmount)%float loan in
            let loan :=
              if (RemainingBalance loan <=? 0)%float
              then set_Status "Repaid" loan
              else loan in
            let loan :=
              set_AuditHistory
                (AuditHistory loan ++
                 ["Repayment of " ++ fmt_Sprintf_f repaymentAmount ++ " made"])
                loan in
            match json_Marshal loan with
            | Err _ => (shim_Error "Error marshalling loan object", stub)
            | Ok loanBytes =>
              match PutState stub loanID loanBytes with
              | Err err => (shim_Error ("Failed to repay loan: " ++ err), stub)
              | Ok stub' => (shim_Success None, stub')
              end
            end
        end
      | _ => (shim_Error "Loan not found", stub)
      end
    end
  | _ => (shim_Error "Incorrect number of arguments. Expected 2", stub)
  end.

(** [func (t *LoanContract) CheckLoanStatus], lines 230-243. *)
Definition CheckLoanStatus (stub : World) (args : list string)
  : Response bytes * World :=
  match args with
  | [loanID] =>
    match GetState stub loanID with
    | Ok (Some loanBytes) => (shim_Success (Some loanBytes), stub)
    | _ => (shim_Error "Loan not found", stub)
    end
  | _ => (shim_Error "Incorrect number of arguments. Expected 1", stub)
  end.

(** [func (t *LoanContract) MarkAsDefaulted], lines 246-286. *)
Definition MarkAsDefaulted (stub : World) (args : list string)
  : Response bytes * World :=
  match args with
  | [loanID] =>
    match GetState stub loanID with
    | Ok (Some loanBytes) =>
      match json_Unmarshal loanBytes with
      | Err _ => (shim_Error "Error unmarshalling loan object", stub)
      | Ok loan =>
        if decide (Status loan ≠ "Active")
        then (shim_Error "Loan is not active", stub)
        else
          let loan := set_Defaulted true loan in
          let loan := set_Status "Defaulted" loan in
          let loan :=
            set_AuditHistory (AuditHistory loan ++ ["Loan Defaulted"]) loan in
          match json_Marshal loan with
          | Err _ => (shim_Error "Error marshalling loan object", stub)
          | Ok loanBytes =>
            match PutState stub loanID loanBytes with
            | Err err =>
              (shim_Error ("Failed to mark loan as defaulted: " ++ err), stub)
            | Ok stub' => (shim_Success None, stub')
            end
          end
      end
    | _ => (shim_Error "Loan not found", stub)
    end
  | _ => (shim_Error "Incorrect number of arguments. Expected 1", stub)
  end.

(** [func (t *LoanContract) AddCollateral], lines 289-326. *)
Definition AddCollateral (stub : World) (args : list string)
  : Response bytes * World :=
  match args with
  | [loanID; collateral] =>
    match GetState stub loanID with
    | Ok (Some loanBytes) =>
      match json_Unmarshal loanBytes with
      | Err _ => (shim_Error "Error unmarshalling loan object", stub)
      | Ok loan =>
        if decide (Status loan ≠ "Pending" ∧ Status loan ≠ "Approved")
        then
          (shim_Error "Loan cannot accept collateral in the current state",
           stub)
        else
          let loan := set_Collateral collateral loan in
          let loan :=
            set_AuditHistory
              (AuditHistory loan ++ ["Collateral added: " ++ collateral])
              loan in
          match json_Marshal loan with
          | Err _ => (shim_Error "Error marshalling loan object", stub)
          | Ok loanBytes =>
            match PutState stub loanID loanBytes with
            | Err err => (shim_Error ("Failed to add collateral: " ++ err), stub)
            | Ok stub' => (shim_Success None, stub')
            end
          end
      end
    | _ => (shim_Error "Loan not found", stub)
    end
  | _ => (shim_Error "Incorrect number of arguments. Expected 2", stub)
  end.

(** [func (t *LoanContract) GetLoanHistory], lines 329-342. *)
Definition GetLoanHistory (stub : World) (args : list string)
  : Response bytes * World :=
  match args with
  | [loanID] =>
    match GetState stub loanID with
    | Ok (Some loanBytes) => (shim_Success (Some loanBytes), stub)
    | _ => (shim_Error "Loan not found", stub)
    end
  | _ => (shim_Error "Incorrect number of arguments. Expected 1", stub)
  end.

(** [func (t *LoanContract) Invoke], lines 37-59: [function] and [args] are
    what [stub.GetFunctionAndParameters()] returns. *)
Definition Invoke (stub : World) (function : string) (args : list string)
  : Response bytes * World :=
  if decide (function = "RequestLoan") then RequestLoan stub args
  else if decide (function = "ApproveLoan") then ApproveLoan stub args
  else if decide (function = "DisburseLoan") then DisburseLoan stub args
  else if decide (function = "RepayLoan") then RepayLoan stub args
  else if decide (function = "CheckLoanStatus") then CheckLoanStatus stub args
  else if decide (function = "MarkAsDefaulted") then MarkAsDefaulted stub args
  else if decide (function = "AddCollateral") then AddCollateral stub args
  else if decide (function = "GetLoanHistory") then GetLoanHistory stub args
  else (shim_Error "Invalid function name", stub).

(** A sequence of transactions, each run on the ledger the previous one
    left; the responses are returned in order. *)
Fixpoint run (stub : World) (txs : list (string * list string))
  : list (Response bytes) * World :=
  match txs with
  | [] => ([], stub)
  | (function, args) :: txs' =>
    let '(r, stub') := Invoke stub function args in
    let '(rs, stub'') := run stub' txs' in
    (r :: rs, stub'')
  end.

(** The record the ledger holds under [loanID], decoded. *)
Definition stored (stub : World) (loanID : string) : option Loan :=
  match stub !! loanID with
  | Some b => match json_Unmarshal b with Ok l => Some l | Err _ => None end
  | None => None
  end.

(** The record each transition builds from the one it read: the
    assignments of the corresponding function, in its order. *)
Definition new_loan (loanID borrowerID : string) (amount : float)
  (duration : Z) : Loan :=
  {| LoanID := loanID; BorrowerID := borrowerID; LenderID := "";
     Amount := amount; InterestRate := 0%float; Duration := duration;
     Status := "Pending"; DisbursementDate := "";
     RepaymentDue := 0%float; RemainingBalance := amount;
     Collateral := ""; Defaulted := false; AuditHistory := [] |}.

Definition approved (lenderID : string) (loan : Loan) : Loan :=
  let loan := set_LenderID lenderID loan in
  let loan := set_Status "Approved" loan in
  set_AuditHistory (AuditHistory loan ++ ["Loan Approved"]) loan.

Definition disbursed (disbursementDate : string) (loan : Loan) : Loan :=
  let loan := set_Status "Active" loan in
  let loan := set_DisbursementDate disbursementDate loan in
  set_AuditHistory (AuditHistory loan ++ ["Loan Disbursed"]) loan.

Definition repaid (repaymentAmount : float) (loan : Loan) : Loan :=
  let loan :=
    set_RemainingBalance (RemainingBalance loan - repaymentAmount)%float
      loan in
  let loan :=
    if (RemainingBalance loan <=? 0)%float then set_Status "Repaid" loan
    else loan in
  set_AuditHistory
    (AuditHistory loan ++
     ["Repayment of " ++ fmt_Sprintf_f repaymentAmount ++ " made"]) loan.

Definition defaulted (loan : Loan) : Loan :=
  let loan := set_Defaulted true loan in
  let loan := set_Status "Defaulted" loan in
  set_AuditHistory (AuditHistory loan ++ ["Loan Defaulted"]) loan.

Definition with_collateral (collateral : string) (loan : Loan) : Loan :=
  let loan := set_Collateral collateral loan in
  set_AuditHistory (AuditHistory loan ++ ["Collateral added: " ++ collateral])
    loan.

End Contract.

(** The sample library: a record is its own encoding, and a record with a
    NaN or infinite field is neither encoded nor decoded, as with
    [encoding/json]. *)
Definition ref_Marshal (l : Loan) : res Loan :=
  if floats_finite l then Ok l
  else Err "json: unsupported value".

Definition ref_lib : Lib :=
  {| bytes := Loan;
     strconv_ParseFloat := ref_ParseFloat;
     strconv_Atoi := ref_Atoi;
     fmt_Sprintf_f := ref_Sprintf_f;
     json_Marshal := ref_Marshal;
     json_Unmarshal := ref_Marshal |}.

(** The ledger a sequence of transactions builds from the empty one. *)
Definition ledger_after (txs : list (string * list string))
  : gmap string Loan :=
  (run (L := ref_lib) ∅ txs).2.

(** A loan of 1000 under the key [L1], taken through its first steps. *)
Definition requested : list (string * list string) :=
  [("RequestLoan", ["L1"; "B1"; "1000"; "12"])].

Definition disbursed_txs : list (string * list string) :=
  requested ++
  [("ApproveLoan", ["L1"; "LEN1"]); ("DisburseLoan", ["L1"; "2024-01-01"])].

Definition repaid_txs : list (string * list string) :=
  disbursed_txs ++ [("RepayLoan", ["L1"; "1000"])].

(** The record under [L1] after [disbursed_txs], and after [repaid_txs]. *)
Definition active_loan : Loan :=
  mkLoan "L1" "B1" "LEN1" 1000 0 12 "Active" "2024-01-01" 0 1000 "" false
    ["Loan Approved"; "Loan Disbursed"].

Definition repaid_loan : Loan :=
  mkLoan "L1" "B1" "LEN1" 1000 0 12 "Repaid" "2024-01-01" 0 0 "" false
    ["Loan Approved"; "Loan Disbursed"; "Repayment of 1000.000000 made"].

End LoanContract.

(** ** The second program: [SmartContract] *)

Module SmartContract.

Record Loan : Type := mkLoan {
  LoanID : string;
  BorrowerID : string;
  LenderID : string;
  Amount : float;
  InterestRate : float;
  Duration : Z;
  Status : string;
  DisbursementDate : string;
  RepaymentDue : float;
  RemainingBalance : float;
  Defaulted : bool
}.

Definition set_LenderID (v : string) (l : Loan) : Loan :=
  mkLoan (LoanID l) (BorrowerID l) v (Amount l) (InterestRate l) (Duration l)
    (Status l) (DisbursementDate l) (RepaymentDue l) (RemainingBalance l)
    (Defaulted l).

Definition set_Status (v : string) (l : Loan) : Loan :=
  mkLoan (LoanID l) (BorrowerID l) (LenderID l) (Amount l) (InterestRate l)
    (Duration l) v (DisbursementDate l) (RepaymentDue l) (RemainingBalance l)
    (Defaulted l).

Definition set_RemainingBalance (v : float) (l : Loan) : Loan :=
  mkLoan (LoanID l) (BorrowerID l) (LenderID l) (Amount l) (InterestRate l)
    (Duration l) (Status l) (DisbursementDate l) (RepaymentDue l) v
    (Defaulted l).

Definition floats_finite (l : Loan) : bool :=
  is_finite (Amount l) && is_finite (InterestRate l) &&
  is_finite (RepaymentDue l) && is_finite (RemainingBalance l).

(** The contract's arguments arrive typed; only [encoding/json] is called. *)
Class Lib : Type := {
  bytes : Type;
  json_Marshal : Loan → res bytes;
  json_Unmarshal : bytes → res Loan
}.

Class LibSpec (L : Lib) : Prop := {
  Marshal_finite : ∀ l : Loan, is_Ok (json_Marshal l) = floats_finite l;
  Unmarshal_Marshal :
    ∀ (l : Loan) (b : bytes), json_Marshal l = Ok b → json_Unmarshal b = Ok l;
  Unmarshal_finite :
    ∀ (l : Loan) (b : bytes), json_Unmarshal b = Ok l → floats_finite l = true
}.

(** A Go [error] result: [None] is [nil]. *)
Definition error : Type := option string.


(** The records the transitions build from the one they read. *)
Definition new_loan (loanID borrowerID : string)
  (amount interestRate : float) (duration : Z) : Loan :=
  {| LoanID := loanID; BorrowerID := borrowerID; LenderID := "";
     Amount := amount; InterestRate := interestRate;
     Duration := duration; Status := "Pending"; DisbursementDate := "";
     RepaymentDue := 0%float; RemainingBalance := amount;
     Defaulted := false |}.

Definition approved (lenderID : string) (loan : Loan) : Loan :=
  let loan := set_LenderID lenderID loan in
  set_Status "Approved" loan.

Definition repaid (amount : float) (loan : Loan) : Loan :=
  let loan :=
    set_RemainingBalance (RemainingBalance loan - amount)%float loan in
  if (RemainingBalance loan <=? 0)%float
  then set_RemainingBalance 0%float (set_Status "Repaid" loan)
  else loan.

Section Contract.
Context {L : Lib}.

Abbreviation World := (gmap string bytes).

(** [func (s *SmartContract) RequestLoan], lines 381-414. *)
Definition RequestLoan (stub : World) (loanID borrowerID : string)
  (amount interestRate : float) (duration : Z) : error * World :=
  match GetState stub loanID with
  | Err err => (Some ("failed to read loan state: " ++ err), stub)
  | Ok (Some _) =>
    (Some ("the loan with ID " ++ loanID ++ " already exists"), stub)
  | Ok None =>
    let loan :=
      {| LoanID := loanID; BorrowerID := borrowerID; LenderID := "";
         Amount := amount; InterestRate := interestRate;
         Duration := duration; Status := "Pending"; DisbursementDate := "";
         RepaymentDue := 0%float; RemainingBalance := amount;
         Defaulted := false |} in
    match json_Marshal loan with
    | Err err => (Some ("failed to marshal loan: " ++ err), stub)
    | Ok loanAsBytes =>
      match PutState stub loanID loanAsBytes with
      | Err err => (Some ("failed to create loan: " ++ err), stub)
      | Ok stub' => (None, stub')
      end
    end
  end.

(** [func (s *SmartContract) ApproveLoan], lines 417-454. *)
Definition ApproveLoan (stub : World) (loanID lenderID : string)
  : error * World :=
  match GetState stub loanID with
  | Err err => (Some ("failed to read loan state: " ++ err), stub)
  | Ok None => (Some ("loan with ID " ++ loanID ++ " not found"), stub)
  | Ok (Some loanAsBytes) =>
    match json_Unmarshal loanAsBytes with
    | Err err => (Some ("failed to unmarshal loan: " ++ err), stub)
    | Ok loan =>
      if decide (Status loan ≠ "Pending")
      then
        (Some ("loan with ID " ++ loanID ++ " is not in Pending status"), stub)
      else
        let loan := set_LenderID lenderID loan in
        let loan := set_Status "Approved" loan in
        match json_Marshal loan with
        | Err err => (Some ("failed to marshal loan: " ++ err), stub)
        | Ok loanAsBytes =>
          match PutState stub loanID loanAsBytes with
          | Err err => (Some ("failed to approve loan: " ++ err), stub)
          | Ok stub' => (None, stub')
          end
        end
    end
  end.

(** [func (s *SmartContract) RepayLoan], lines 457-497.  Here the balance
    is reset to zero together with the change of status. *)
Definition RepayLoan (stub : World) (loanID : string) (amount : float)
  : error * World :=
  match GetState stub loanID with
  | Err err => (Some ("failed to read loan state: " ++ err), stub)
  | Ok None => (Some ("loan with ID " ++ loanID ++ " not found"), stub)
  | Ok (Some loanAsBytes) =>
    match json_Unmarshal loanAsBytes with
    | Err err => (Some ("failed to unmarshal loan: " ++ err), stub)
    | Ok loan =>
      if decide (Status loan ≠ "Active")
      then
        (Some ("loan with ID " ++ loanID ++ " is not in Active status"), stub)
      else
        let loan :=
          set_RemainingBalance (RemainingBalance loan - amount)%float loan in
        let loan :=
          if (RemainingBalance loan <=? 0)%float
          then set_RemainingBalance 0%float (set_Status "Repaid" loan)
          else loan in
        match json_Marshal loan with
        | Err err => (Some ("failed to marshal loan: " ++ err), stub)
        | Ok loanAsBytes =>
          match PutState stub loanID loanAsBytes with
          | Err err => (Some ("failed to repay loan: " ++ err), stub)
          | Ok stub' => (None, stub')
          end
        end
    end
  end.

(** The record the ledger holds under [loanID], decoded. *)
Definition stored (stub : World) (loanID : string) : option Loan :=
  match stub !! loanID with
  | Some b => match json_Unmarshal b with Ok l => Some l | Err _ => None end
  | None => None
  end.

(** [func (s *SmartContract) QueryLoan], lines 500-517. *)
Definition QueryLoan (stub : World) (loanID : string) : res Loan :=
  match GetState stub loanID with
  | Err err => Err ("failed to read loan state: " ++ err)
  | Ok None => Err ("loan with ID " ++ loanID ++ " not found")
  | Ok (Some loanAsBytes) =>
    match json_Unmarshal loanAsBytes with
    | Err err => Err ("failed to unmarshal loan: " ++ err)
    | Ok loan => Ok loan
    end
  end.

End Contract.

Definition ref_Marshal (l : Loan) : res Loan :=
  if floats_finite l then Ok l
  else Err "json: unsupported value".

Definition ref_lib : Lib :=
  {| bytes := Loan;
     json_Marshal := ref_Marshal;
     json_Unmarshal := ref_Marshal |}.

(** An [Active] loan of 1000 with the given balance left, as the first
    program stores it after disbursement, without the two fields this
    record lacks. *)
Definition active_loan (balance : float) : Loan :=
  {| LoanID := "L1"; BorrowerID := "B1"; LenderID := "LEN1";
     Amount := 1000%float; InterestRate := 0%float; Duration := 12;
     Status := "Active"; DisbursementDate := "2024-01-01";
     RepaymentDue := 0%float; RemainingBalance := balance;
     Defaulted := false |}.

End SmartContract.


(** * Properties *)

(** ** Facts about binary64 comparison *)

Section FloatOrder.

Local Open Scope float_scope.

Lemma SFleb_trans (x y z : spec_float) :
  SFleb x y = true → SFleb y z = true → SFleb x z = true.
Proof.
  unfold SFleb.
  destruct x as [sx| sx| |sx mx ex], y as [sy| sy| |sy my ey],
    z as [sz| sz| |sz mz ez]; simpl;
    repeat match goal with s : bool |- _ => destruct s end; simpl;
    try done;
    change (PosDef.Pos.compare_cont Eq) with Pos.compare;
    destruct (Z.compare_spec ex ey), (Z.compare_spec ey ez),
      (Z.compare_spec ex ez); simpl; try done; try lia; subst;
    destruct (Pos.compare_spec mx my), (Pos.compare_spec my mz),
      (Pos.compare_spec mx mz); simpl; try done; lia.
Qed.

Lemma leb_trans (x y z : float) :
  (x <=? y) = true → (y <=? z) = true → (x <=? z) = true.
Proof. rewrite !leb_spec. apply SFleb_trans. Qed.



(** Subtracting zero changes nothing, whatever the number. *)
Lemma sub_zero (x : float) : x - 0 = x.
Proof.
  apply Prim2SF_inj. rewrite sub_spec.
  change (Prim2SF 0) with (S754_zero false).
  destruct (Prim2SF x) as [s| s| |s m e]; simpl; try done.
  by destruct s.
Qed.

End FloatOrder.

(** ** [LoanContract] *)

Module LoanContractProofs.
Import LoanContract.

(** Opens every branch of an entry point. *)
Ltac open_op :=
  unfold GetState, PutState in *;
  repeat (first [ case_match | case_decide ]; simplify_eq/=; try done).

Abbreviation World := (gmap string bytes).

Section Facts.
Context {L : Lib}.

(** *** What a successful call did *)

Lemma RequestLoan_inv (stub stub' : World) args p :
  RequestLoan stub args = (shim_Success p, stub') →
  ∃ id borrower a d amount duration b,
    args = [id; borrower; a; d] ∧
    strconv_ParseFloat a = Ok amount ∧ strconv_Atoi d = Ok duration ∧
    json_Marshal (new_loan id borrower amount duration) = Ok b ∧
    stub' = <[id := b]> stub ∧ p = None.
Proof.
  unfold RequestLoan, new_loan. intros H. open_op.
  eexists _, _, _, _, _, _, _. eauto 10.
Qed.

Lemma ApproveLoan_inv (stub stub' : World) args p :
  ApproveLoan stub args = (shim_Success p, stub') →
  ∃ id lender b l b',
    args = [id; lender] ∧ stub !! id = Some b ∧ json_Unmarshal b = Ok l ∧
    Status l = "Pending" ∧ json_Marshal (approved lender l) = Ok b' ∧
    stub' = <[id := b']> stub ∧ p = None.
Proof.
  unfold ApproveLoan, approved. intros H. open_op.
  eexists _, _, _, _, _. split_and!; eauto. by apply dec_stable.
Qed.

Lemma DisburseLoan_inv (stub stub' : World) args p :
  DisburseLoan stub args = (shim_Success p, stub') →
  ∃ id date b l b',
    args = [id; date] ∧ stub !! id = Some b ∧ json_Unmarshal b = Ok l ∧
    Status l = "Approved" ∧ json_Marshal (disbursed date l) = Ok b' ∧
    stub' = <[id := b']> stub ∧ p = None.
Proof.
  unfold DisburseLoan, disbursed. intros H. open_op.
  eexists _, _, _, _, _. split_and!; eauto. by apply dec_stable.
Qed.

Lemma RepayLoan_inv (stub stub' : World) args p :
  RepayLoan stub args = (shim_Success p, stub') →
  ∃ id a r b l b',
    args = [id; a] ∧ strconv_ParseFloat a = Ok r ∧
    stub !! id = Some b ∧ json_Unmarshal b = Ok l ∧
    Status l = "Active" ∧ json_Marshal (repaid r l) = Ok b' ∧
    stub' = <[id := b']> stub ∧ p = None.
Proof.
  unfold RepayLoan, repaid. intros H.
  unfold GetState, PutState in *.
  repeat (first [ case_match | case_decide ]; simplify_eq; try done).
  all: eexists _, _, _, _, _, _; split_and!; eauto; try (by apply dec_stable).
  all: match goal with H : (_ <=? _)%float = _ |- _ => by rewrite H end.
Qed.

Lemma MarkAsDefaulted_inv (stub stub' : World) args p :
  MarkAsDefaulted stub args = (shim_Success p, stub') →
  ∃ id b l b',
    args = [id] ∧ stub !! id = Some b ∧ json_Unmarshal b = Ok l ∧
    Status l = "Active" ∧ json_Marshal (defaulted l) = Ok b' ∧
    stub' = <[id := b']> stub ∧ p = None.
Proof.
  unfold MarkAsDefaulted, defaulted. intros H. open_op.
  eexists _, _, _, _. split_and!; eauto. by apply dec_stable.
Qed.

Lemma AddCollateral_inv (stub stub' : World) args p :
  AddCollateral stub args = (shim_Success p, stub') →
  ∃ id c b l b',
    args = [id; c] ∧ stub !! id = Some b ∧ json_Unmarshal b = Ok l ∧
    (Status l = "Pending" ∨ Status l = "Approved") ∧
    json_Marshal (with_collateral c l) = Ok b' ∧
    stub' = <[id := b']> stub ∧ p = None.
Proof.
  unfold AddCollateral, with_collateral. intros H. open_op.
  eexists _, _, _, _, _. split_and!; eauto.
  match goal with |- Status ?l = _ ∨ _ =>
    destruct (decide (Status l = "Pending")); [by left|];
    destruct (decide (Status l = "Approved")); [by right|]; exfalso; eauto
  end.
Qed.

Lemma read_inv (stub stub' : World) args p :
  CheckLoanStatus stub args = (shim_Success p, stub') →
  ∃ id b, args = [id] ∧ stub !! id = Some b ∧ p = Some b ∧ stub' = stub.
Proof. unfold CheckLoanStatus. intros H. open_op. by eexists _, _. Qed.

(** *** A failed call wrote nothing *)

Lemma RequestLoan_failure (stub stub' : World) args m :
  RequestLoan stub args = (shim_Error m, stub') → stub' = stub.
Proof. unfold RequestLoan. intros H. by open_op. Qed.

Lemma ApproveLoan_failure (stub stub' : World) args m :
  ApproveLoan stub args = (shim_Error m, stub') → stub' = stub.
Proof. unfold ApproveLoan. intros H. by open_op. Qed.

Lemma DisburseLoan_failure (stub stub' : World) args m :
  DisburseLoan stub args = (shim_Error m, stub') → stub' = stub.
Proof. unfold DisburseLoan. intros H. by open_op. Qed.

Lemma RepayLoan_failure (stub stub' : World) args m :
  RepayLoan stub args = (shim_Error m, stub') → stub' = stub.
Proof.
  unfold RepayLoan. intros H. unfold GetState, PutState in *.
  by repeat (first [ case_match | case_decide ]; simplify_eq; try done).
Qed.

Lemma CheckLoanStatus_failure (stub stub' : World) args m :
  CheckLoanStatus stub args = (shim_Error m, stub') → stub' = stub.
Proof. unfold CheckLoanStatus. intros H. by open_op. Qed.

Lemma MarkAsDefaulted_failure (stub stub' : World) args m :
  MarkAsDefaulted stub args = (shim_Error m, stub') → stub' = stub.
Proof. unfold MarkAsDefaulted. intros H. by open_op. Qed.

Lemma AddCollateral_failure (stub stub' : World) args m :
  AddCollateral stub args = (shim_Error m, stub') → stub' = stub.
Proof. unfold AddCollateral. intros H. by open_op. Qed.

Lemma GetLoanHistory_failure (stub stub' : World) args m :
  GetLoanHistory stub args = (shim_Error m, stub') → stub' = stub.
Proof. unfold GetLoanHistory. intros H. by open_op. Qed.

(** *** The record under a key *)

Lemma stored_Some (stub : World) id l :
  stored stub id = Some l ↔
  ∃ b, stub !! id = Some b ∧ json_Unmarshal b = Ok l.
Proof.
  unfold stored. split.
  - intros H. open_op. eauto.
  - intros (b & -> & ->). done.
Qed.

Lemma stored_insert_ne (stub : World) id id' b :
  id ≠ id' → stored (<[id := b]> stub) id' = stored stub id'.
Proof. intros Hne. unfold stored. by rewrite lookup_insert_ne. Qed.

(** *** Calls that go through, given what the ledger holds *)

Lemma RequestLoan_ok (stub : World) id borrower a d amount duration b :
  strconv_ParseFloat a = Ok amount → strconv_Atoi d = Ok duration →
  json_Marshal (new_loan id borrower amount duration) = Ok b →
  RequestLoan stub [id; borrower; a; d] = (shim_Success None, <[id := b]> stub).
Proof.
  intros Ha Hd Hb. unfold RequestLoan, new_loan in *. by rewrite Ha, Hd, Hb.
Qed.

Lemma ApproveLoan_ok (stub : World) id lender l b' :
  stored stub id = Some l → Status l = "Pending" →
  json_Marshal (approved lender l) = Ok b' →
  ApproveLoan stub [id; lender] = (shim_Success None, <[id := b']> stub).
Proof.
  intros (b & Hb & Hl)%stored_Some Hs Hm.
  unfold ApproveLoan, approved, GetState in *. rewrite Hb, Hl.
  rewrite decide_False by (by intros []). by rewrite Hm.
Qed.

Lemma DisburseLoan_ok (stub : World) id date l b' :
  stored stub id = Some l → Status l = "Approved" →
  json_Marshal (disbursed date l) = Ok b' →
  DisburseLoan stub [id; date] = (shim_Success None, <[id := b']> stub).
Proof.
  intros (b & Hb & Hl)%stored_Some Hs Hm.
  unfold DisburseLoan, disbursed, GetState in *. rewrite Hb, Hl.
  rewrite decide_False by (by intros []). by rewrite Hm.
Qed.

Lemma RepayLoan_ok (stub : World) id a r l b' :
  strconv_ParseFloat a = Ok r →
  stored stub id = Some l → Status l = "Active" →
  json_Marshal (repaid r l) = Ok b' →
  RepayLoan stub [id; a] = (shim_Success None, <[id := b']> stub).
Proof.
  intros Ha (b & Hb & Hl)%stored_Some Hs Hm.
  unfold RepayLoan, repaid, GetState in *. rewrite Ha, Hb, Hl.
  rewrite decide_False by (by intros []). by rewrite Hm.
Qed.

Lemma MarkAsDefaulted_ok (stub : World) id l b' :
  stored stub id = Some l → Status l = "Active" →
  json_Marshal (defaulted l) = Ok b' →
  MarkAsDefaulted stub [id] = (shim_Success None, <[id := b']> stub).
Proof.
  intros (b & Hb & Hl)%stored_Some Hs Hm.
  unfold MarkAsDefaulted, defaulted, GetState in *. rewrite Hb, Hl.
  rewrite decide_False by (by intros []). by rewrite Hm.
Qed.


(** *** Dispatch and sequences *)

Lemma Invoke_RequestLoan (stub : World) args :
  Invoke stub "RequestLoan" args = RequestLoan stub args.
Proof. done. Qed.






Lemma run_cons (stub stub1 stub2 : World) function args txs r rs :
  Invoke stub function args = (r, stub1) →
  run stub1 txs = (rs, stub2) →
  run stub ((function, args) :: txs) = (r :: rs, stub2).
Proof. intros H1 H2. simpl. by rewrite H1, H2. Qed.

End Facts.

(** *** With the guarantees of [encoding/json] *)

Section FactsJSON.
Context {L : Lib} {LS : LibSpec L}.

Lemma Marshal_ok (l : Loan) :
  floats_finite l = true → ∃ b, json_Marshal l = Ok b.
Proof.
  intros H. pose proof (Marshal_finite l) as HM. rewrite H in HM.
  destruct (json_Marshal l); [eauto | discriminate].
Qed.

Lemma Marshal_ok_finite (l : Loan) b :
  json_Marshal l = Ok b → floats_finite l = true.
Proof. intros H. rewrite <- Marshal_finite, H. done. Qed.

Lemma stored_finite (stub : World) id l :
  stored stub id = Some l → floats_finite l = true.
Proof. intros (b & _ & Hl)%stored_Some. by eapply Unmarshal_finite. Qed.

Lemma stored_insert (stub : World) id l b :
  json_Marshal l = Ok b → stored (<[id := b]> stub) id = Some l.
Proof.
  intros H. unfold stored. rewrite lookup_insert_eq.
  by rewrite (Unmarshal_Marshal _ _ H).
Qed.

Lemma floats_finite_balance (l : Loan) :
  floats_finite l = true → is_finite (RemainingBalance l) = true.
Proof.
  unfold floats_finite. intros H.
  by destruct (is_finite (RemainingBalance l)); [|rewrite andb_false_r in H].
Qed.

Lemma floats_finite_repaid (r : float) (l : Loan) :
  floats_finite (repaid r l) =
  is_finite (Amount l) && is_finite (InterestRate l) &&
  is_finite (RepaymentDue l) && is_finite (RemainingBalance l - r)%float.
Proof. unfold floats_finite, repaid. simpl. by case_match. Qed.

(** Each transition, on a ledger whose record allows it: the call
    succeeds, the record it built is the one now stored, and no other key
    changed. *)
Lemma RequestLoan_step (stub : World) id borrower a d amount duration :
  strconv_ParseFloat a = Ok amount → strconv_Atoi d = Ok duration →
  is_finite amount = true →
  ∃ stub',
    RequestLoan stub [id; borrower; a; d] = (shim_Success None, stub') ∧
    stored stub' id = Some (new_loan id borrower amount duration) ∧
    ∀ id', id ≠ id' → stub' !! id' = stub !! id'.
Proof.
  intros Ha Hd Hfin.
  destruct (Marshal_ok (new_loan id borrower amount duration)) as [b Hb].
  { unfold floats_finite. simpl. by rewrite Hfin. }
  exists (<[id := b]> stub). split_and!.
  - by eapply RequestLoan_ok.
  - by apply stored_insert.
  - intros id' Hne. by rewrite lookup_insert_ne.
Qed.

Lemma ApproveLoan_step (stub : World) id lender l :
  stored stub id = Some l → Status l = "Pending" →
  ∃ stub',
    ApproveLoan stub [id; lender] = (shim_Success None, stub') ∧
    stored stub' id = Some (approved lender l) ∧
    ∀ id', id ≠ id' → stub' !! id' = stub !! id'.
Proof.
  intros Hl Hs.
  destruct (Marshal_ok (approved lender l)) as [b Hb].
  { exact (stored_finite _ _ _ Hl). }
  exists (<[id := b]> stub). split_and!.
  - by eapply ApproveLoan_ok.
  - by apply stored_insert.
  - intros id' Hne. by rewrite lookup_insert_ne.
Qed.

Lemma DisburseLoan_step (stub : World) id date l :
  stored stub id = Some l → Status l = "Approved" →
  ∃ stub',
    DisburseLoan stub [id; date] = (shim_Success None, stub') ∧
    stored stub' id = Some (disbursed date l) ∧
    ∀ id', id ≠ id' → stub' !! id' = stub !! id'.
Proof.
  intros Hl Hs.
  destruct (Marshal_ok (disbursed date l)) as [b Hb].
  { exact (stored_finite _ _ _ Hl). }
  exists (<[id := b]> stub). split_and!.
  - by eapply DisburseLoan_ok.
  - by apply stored_insert.
  - intros id' Hne. by rewrite lookup_insert_ne.
Qed.

Lemma RepayLoan_step (stub : World) id a r l :
  strconv_ParseFloat a = Ok r →
  stored stub id = Some l → Status l = "Active" →
  is_finite (RemainingBalance l - r)%float = true →
  ∃ stub',
    RepayLoan stub [id; a] = (shim_Success None, stub') ∧
    stored stub' id = Some (repaid r l) ∧
    ∀ id', id ≠ id' → stub' !! id' = stub !! id'.
Proof.
  intros Ha Hl Hs Hfin.
  destruct (Marshal_ok (repaid r l)) as [b Hb].
  { rewrite floats_finite_repaid, Hfin.
    pose proof (stored_finite _ _ _ Hl) as Hf. unfold floats_finite in Hf.
    destruct (is_finite (Amount l)), (is_finite (InterestRate l)),
      (is_finite (RepaymentDue l)); done. }
  exists (<[id := b]> stub). split_and!.
  - by eapply RepayLoan_ok.
  - by apply stored_insert.
  - intros id' Hne. by rewrite lookup_insert_ne.
Qed.

Lemma MarkAsDefaulted_step (stub : World) id l :
  stored stub id = Some l → Status l = "Active" →
  ∃ stub',
    MarkAsDefaulted stub [id] = (shim_Success None, stub') ∧
    stored stub' id = Some (defaulted l) ∧
    ∀ id', id ≠ id' → stub' !! id' = stub !! id'.
Proof.
  intros Hl Hs.
  destruct (Marshal_ok (defaulted l)) as [b Hb].
  { exact (stored_finite _ _ _ Hl). }
  exists (<[id := b]> stub). split_and!.
  - by eapply MarkAsDefaulted_ok.
  - by apply stored_insert.
  - intros id' Hne. by rewrite lookup_insert_ne.
Qed.

(** A successful repayment stored [repaid r l]. *)
Lemma RepayLoan_success_stored (stub stub' : World) id a r l p :
  strconv_ParseFloat a = Ok r →
  stored stub id = Some l →
  RepayLoan stub [id; a] = (shim_Success p, stub') →
  stored stub' id = Some (repaid r l).
Proof.
  intros Ha (b0 & Hb0 & Hl0)%stored_Some E.
  apply RepayLoan_inv in E
    as (? & x & r' & b & l1 & b' & ? & Ha' & Hb & Hl & Hs & Hm & -> & _).
  simplify_eq. rewrite Hl0 in Hl. rewrite Ha in Ha'. simplify_eq.
  by apply stored_insert.
Qed.


End FactsJSON.

(** *** Failures, reads and collateral *)

Section Claims.
Context {L : Lib}.

Lemma Invoke_failure_ledger (stub : World) function args :
  match (Invoke stub function args).1 with
  | shim_Error _ => (Invoke stub function args).2 = stub
  | shim_Success _ => True
  end.
Proof.
  destruct (Invoke stub function args) as [[p|m] stub'] eqn:E; [done|].
  simpl. unfold Invoke in E.
  repeat case_decide;
    eauto using RequestLoan_failure, ApproveLoan_failure,
      DisburseLoan_failure, RepayLoan_failure, CheckLoanStatus_failure,
      MarkAsDefaulted_failure, AddCollateral_failure, GetLoanHistory_failure.
  by simplify_eq.
Qed.

(** C5.  Whatever the entry point and whatever the arguments, a call that
    answers with an error returns the ledger it was given: no check that
    can fail comes after the write, which is the last step of every
    entry point. *)
Theorem Invoke_failure_writes_nothing (stub : World) function args :
  is_Success (Invoke stub function args).1 = false →
  (Invoke stub function args).2 = stub.
Proof.
  pose proof (Invoke_failure_ledger stub function args) as H.
  by destruct (Invoke stub function args).1.
Qed.

(** C10.  [CheckLoanStatus] and [GetLoanHistory] are the same function of
    the ledger and the arguments, also through [Invoke]: one argument is
    required, the answer is the stored bytes when the key is present and
    the error [Loan not found] when it is not, and the ledger is returned
    as it was. *)
Theorem CheckLoanStatus_GetLoanHistory (stub : World) :
  (∀ args, CheckLoanStatus stub args = GetLoanHistory stub args) ∧
  (∀ args,
     Invoke stub "CheckLoanStatus" args = Invoke stub "GetLoanHistory" args) ∧
  (∀ args, (GetLoanHistory stub args).2 = stub) ∧
  (∀ id,
     GetLoanHistory stub [id] =
     (match stub !! id with
      | Some b => shim_Success (Some b)
      | None => shim_Error "Loan not found"
      end, stub)).
Proof.
  split_and!.
  - done.
  - done.
  - intros args. unfold GetLoanHistory. by open_op.
  - intros id. unfold GetLoanHistory, GetState. by destruct (stub !! id).
Qed.

End Claims.

Section ClaimsJSON.
Context {L : Lib} {LS : LibSpec L}.



(** C2 (what the code does instead).  [RequestLoan] never looks the key
    up: on a ledger that already holds a record under [id] it succeeds
    all the same, and the record stored afterwards is the new [Pending]
    loan. *)
Theorem RequestLoan_overwrites_existing (stub : World)
    id borrower a d amount duration :
  is_Some (stub !! id) →
  strconv_ParseFloat a = Ok amount → strconv_Atoi d = Ok duration →
  is_finite amount = true →
  ∃ stub',
    RequestLoan stub [id; borrower; a; d] = (shim_Success None, stub') ∧
    stored stub' id = Some (new_loan id borrower amount duration).
Proof.
  intros _ Ha Hd Hfin.
  destruct (RequestLoan_step stub id borrower a d _ _ Ha Hd Hfin)
    as (stub' & E & Hl & _).
  eauto.
Qed.

(** C4 (what the code does instead).  A loan whose status is [Repaid] or
    [Defaulted] is put back to [Pending] by a [RequestLoan] for the same
    key: the status moves, and not along an edge of the lifecycle
    graph. *)
Theorem RequestLoan_reopens_closed_loan (stub : World)
    id l borrower a d amount duration :
  stored stub id = Some l →
  Status l = "Repaid" ∨ Status l = "Defaulted" →
  strconv_ParseFloat a = Ok amount → strconv_Atoi d = Ok duration →
  is_finite amount = true →
  ∃ stub' l',
    RequestLoan stub [id; borrower; a; d] = (shim_Success None, stub') ∧
    stored stub' id = Some l' ∧ Status l' = "Pending" ∧
    Status l' ≠ Status l ∧ ¬ lifecycle_edge (Status l) (Status l').
Proof.
  intros Hl Hs Ha Hd Hfin.
  destruct (RequestLoan_step stub id borrower a d _ _ Ha Hd Hfin)
    as (stub' & E & Hl' & _).
  exists stub', (new_loan id borrower amount duration). split_and!; try done.
  - simpl. by destruct Hs as [-> | ->].
  - unfold lifecycle_edge. simpl. intros [[? ?]|[[? ?]|[[? ?]|[? ?]]]]; done.
Qed.

(** C1 (what the code does instead).  From any ledger, a loan of 1000
    requested, approved and disbursed, then repaid 400 and 700: the five
    calls succeed, the status ends [Repaid], and the balance stored is
    [-100], below zero: this [RepayLoan] changes the status and leaves the
    balance as subtracted. *)
Theorem RepayLoan_400_then_700 (stub : World) :
  strconv_ParseFloat "1000" = Ok 1000%float →
  strconv_Atoi "12" = Ok 12%Z →
  strconv_ParseFloat "400" = Ok 400%float →
  strconv_ParseFloat "700" = Ok 700%float →
  ∃ stub' l,
    run stub
      [("RequestLoan", ["L1"; "B1"; "1000"; "12"]);
       ("ApproveLoan", ["L1"; "LEN1"]);
       ("DisburseLoan", ["L1"; "2024-01-01"]);
       ("RepayLoan", ["L1"; "400"]);
       ("RepayLoan", ["L1"; "700"])] =
    ([shim_Success None; shim_Success None; shim_Success None;
      shim_Success None; shim_Success None], stub') ∧
    stored stub' "L1" = Some l ∧
    Status l = "Repaid" ∧
    RemainingBalance l = (-100)%float ∧
    (RemainingBalance l <? 0)%float = true.
Proof.
  intros H1000 H12 H400 H700.
  destruct (RequestLoan_step stub "L1" "B1" _ _ _ _ H1000 H12 eq_refl)
    as (s1 & E1 & L1 & _).
  destruct (ApproveLoan_step s1 "L1" "LEN1" _ L1 eq_refl)
    as (s2 & E2 & L2 & _).
  destruct (DisburseLoan_step s2 "L1" "2024-01-01" _ L2 eq_refl)
    as (s3 & E3 & L3 & _).
  destruct (RepayLoan_step s3 "L1" _ _ _ H400 L3 eq_refl eq_refl)
    as (s4 & E4 & L4 & _).
  destruct (RepayLoan_step s4 "L1" _ _ _ H700 L4 eq_refl eq_refl)
    as (s5 & E5 & L5 & _).
  eexists s5, _. split_and!; [|exact L5|done..].
  repeat (eapply run_cons; [eassumption|]). done.
Qed.


End ClaimsJSON.

(** *** Further properties of [LoanContract] *)

Section More.
Context {L : Lib} {LS : LibSpec L}.

(** A call touches no key but its first argument. *)
Theorem Invoke_frame (stub stub' : World) function id rest r id' :
  Invoke stub function (id :: rest) = (r, stub') →
  id ≠ id' → stub' !! id' = stub !! id'.
Proof.
  intros E Hne. destruct r as [p|m].
  - unfold Invoke in E. repeat case_decide.
    + apply RequestLoan_inv in E as (? & ? & ? & ? & ? & ? & ? & ? & _ & _ & _ & -> & _).
      simplify_eq. by rewrite lookup_insert_ne.
    + apply ApproveLoan_inv in E as (? & ? & ? & ? & ? & ? & _ & _ & _ & _ & -> & _).
      simplify_eq. by rewrite lookup_insert_ne.
    + apply DisburseLoan_inv in E as (? & ? & ? & ? & ? & ? & _ & _ & _ & _ & -> & _).
      simplify_eq. by rewrite lookup_insert_ne.
    + apply RepayLoan_inv in E as (? & ? & ? & ? & ? & ? & ? & _ & _ & _ & _ & _ & -> & _).
      simplify_eq. by rewrite lookup_insert_ne.
    + apply read_inv in E as (? & ? & _ & _ & _ & ->). done.
    + apply MarkAsDefaulted_inv in E as (? & ? & ? & ? & ? & _ & _ & _ & _ & -> & _).
      simplify_eq. by rewrite lookup_insert_ne.
    + apply AddCollateral_inv in E as (? & ? & ? & ? & ? & ? & _ & _ & _ & _ & -> & _).
      simplify_eq. by rewrite lookup_insert_ne.
    + apply read_inv in E as (? & ? & _ & _ & _ & ->). done.
    + done.
  - pose proof (Invoke_failure_ledger stub function (id :: rest)) as H.
    rewrite E in H. simpl in H. by rewrite H.
Qed.

(** Apart from [RequestLoan], a successful call leaves the status of the
    loan as it was or moves it along one edge of the lifecycle graph. *)
Theorem Invoke_status_follows_edge (stub stub' : World) function id rest p l :
  function ≠ "RequestLoan" →
  stored stub id = Some l →
  Invoke stub function (id :: rest) = (shim_Success p, stub') →
  ∃ l',
    stored stub' id = Some l' ∧
    (Status l' = Status l ∨ lifecycle_edge (Status l) (Status l')).
Proof.
  intros Hf (b0 & Hb0 & Hl0)%stored_Some E.
  unfold Invoke in E. unfold lifecycle_edge. repeat case_decide; try done.
  - apply ApproveLoan_inv in E as (? & x & b & l1 & b' & ? & Hb & Hl & Hs & Hm & -> & _).
    simplify_eq. rewrite Hl0 in Hl. simplify_eq.
    exists (approved x l1). split; [by apply stored_insert|]. rewrite Hs. auto.
  - apply DisburseLoan_inv in E as (? & x & b & l1 & b' & ? & Hb & Hl & Hs & Hm & -> & _).
    simplify_eq. rewrite Hl0 in Hl. simplify_eq.
    exists (disbursed x l1). split; [by apply stored_insert|]. rewrite Hs. auto.
  - apply RepayLoan_inv in E as (? & x & r & b & l1 & b' & ? & _ & Hb & Hl & Hs & Hm & -> & _).
    simplify_eq. rewrite Hl0 in Hl. simplify_eq.
    exists (repaid r l1). split; [by apply stored_insert|]. rewrite Hs.
    unfold repaid. simpl. case_match; simpl; auto 10.
  - apply read_inv in E as (? & ? & _ & _ & _ & ->).
    exists l. split; [apply stored_Some; eauto | auto].
  - apply MarkAsDefaulted_inv in E as (? & b & l1 & b' & ? & Hb & Hl & Hs & Hm & -> & _).
    simplify_eq. rewrite Hl0 in Hl. simplify_eq.
    exists (defaulted l1). split; [by apply stored_insert|]. rewrite Hs. auto 10.
  - apply AddCollateral_inv in E as (? & x & b & l1 & b' & ? & Hb & Hl & Hs & Hm & -> & _).
    simplify_eq. rewrite Hl0 in Hl. simplify_eq.
    exists (with_collateral x l1). split; [by apply stored_insert|]. auto.
  - apply read_inv in E as (? & ? & _ & _ & _ & ->).
    exists l. split; [apply stored_Some; eauto | auto].
Qed.

(** What this [RepayLoan] stores, in general: the balance is the
    difference, whatever its sign, and the status is [Repaid] exactly when
    the difference is [<= 0]. *)
Theorem RepayLoan_stores_difference (stub stub' : World) id a r l :
  strconv_ParseFloat a = Ok r →
  stored stub id = Some l →
  RepayLoan stub [id; a] = (shim_Success None, stub') →
  ∃ l',
    stored stub' id = Some l' ∧
    RemainingBalance l' = (RemainingBalance l - r)%float ∧
    Status l' =
    (if (RemainingBalance l - r <=? 0)%float then "Repaid" else Status l) ∧
    AuditHistory l' =
    (AuditHistory l ++
     [("Repayment of " ++ fmt_Sprintf_f r ++ " made")%string])%list.
Proof.
  intros Ha Hl E. exists (repaid r l).
  split; [by eapply RepayLoan_success_stored|].
  unfold repaid. simpl. by case_match.
Qed.

(** A repayment of zero on an [Active] loan with a positive balance is
    accepted: balance and status stay, one audit entry is added. *)
Theorem RepayLoan_zero (stub : World) id a l :
  strconv_ParseFloat a = Ok 0%float →
  stored stub id = Some l → Status l = "Active" →
  (RemainingBalance l <=? 0)%float = false →
  ∃ stub' l',
    RepayLoan stub [id; a] = (shim_Success None, stub') ∧
    stored stub' id = Some l' ∧
    RemainingBalance l' = RemainingBalance l ∧ Status l' = "Active" ∧
    length (AuditHistory l') = S (length (AuditHistory l)).
Proof.
  intros Ha Hl Hs Hpos.
  pose proof (floats_finite_balance _ (stored_finite _ _ _ Hl)) as Hfin.
  destruct (RepayLoan_step stub id a 0%float l Ha Hl Hs) as (stub' & E & Hl' & _).
  { by rewrite sub_zero. }
  exists stub', (repaid 0 l). split_and!; try done.
  - unfold repaid. simpl. rewrite sub_zero. by case_match.
  - unfold repaid. simpl. by rewrite sub_zero, Hpos.
  - unfold repaid. simpl. rewrite sub_zero, Hpos. simpl.
    rewrite length_app. simpl. lia.
Qed.

(** A repayment that parses to NaN is refused: the record cannot be
    encoded, and the ledger is left as it was. *)
Theorem RepayLoan_NaN (stub : World) id a l :
  strconv_ParseFloat a = Ok nan →
  stored stub id = Some l → Status l = "Active" →
  RepayLoan stub [id; a] = (shim_Error "Error marshalling loan object", stub).
Proof.
  intros Ha (b & Hb & Hl)%stored_Some Hs.
  unfold RepayLoan, GetState. rewrite Ha, Hb, Hl.
  rewrite decide_False by (by intros []).
  match goal with |- context [json_Marshal ?x] =>
    change x with (repaid nan l);
    pose proof (Marshal_finite (repaid nan l)) as HM
  end.
  rewrite floats_finite_repaid in HM.
  assert (is_finite (RemainingBalance l - nan)%float = false) as Hn.
  { unfold is_finite, is_nan. rewrite FloatAxioms.eqb_spec, sub_spec.
    change (Prim2SF nan) with S754_nan.
    by destruct (Prim2SF (RemainingBalance l)) as [[]|[]| |]. }
  rewrite Hn, andb_false_r in HM.
  by destruct (json_Marshal (repaid nan l)).
Qed.

(** The upper bound is kept by this [RepayLoan] too, under the same
    condition: a repayment that does not raise the balance leaves it at
    most the principal. *)
Theorem RepayLoan_keeps_upper_bound (stub stub' : World) id a r l :
  strconv_ParseFloat a = Ok r →
  stored stub id = Some l →
  RepayLoan stub [id; a] = (shim_Success None, stub') →
  (RemainingBalance l <=? Amount l)%float = true →
  (RemainingBalance l - r <=? RemainingBalance l)%float = true →
  ∃ l',
    stored stub' id = Some l' ∧ Amount l' = Amount l ∧
    (RemainingBalance l' <=? Amount l')%float = true.
Proof.
  intros Ha Hl E Hup Hmono. exists (repaid r l).
  split; [by eapply RepayLoan_success_stored|].
  assert (Amount (repaid r l) = Amount l) as ->
    by (unfold repaid; simpl; by case_match).
  assert (RemainingBalance (repaid r l) = (RemainingBalance l - r)%float)
    as -> by (unfold repaid; simpl; by case_match).
  split; [done|]. by eapply leb_trans.
Qed.


(** Once a loan is [Repaid] or [Defaulted], the only calls on its key that
    succeed, [RequestLoan] apart, are the two reads: the ledger is
    returned as it was. *)
Theorem Invoke_terminal_state (stub stub' : World) function id rest p l :
  function ≠ "RequestLoan" →
  stored stub id = Some l →
  Status l = "Repaid" ∨ Status l = "Defaulted" →
  Invoke stub function (id :: rest) = (shim_Success p, stub') →
  stub' = stub.
Proof.
  intros Hf (b0 & Hb0 & Hl0)%stored_Some Hs E.
  unfold Invoke in E. repeat case_decide; try done.
  - apply ApproveLoan_inv in E as (? & x & b & l1 & b' & ? & Hb & Hl & Hs1 & _).
    simplify_eq. rewrite Hl0 in Hl. simplify_eq.
    rewrite Hs1 in Hs. by destruct Hs.
  - apply DisburseLoan_inv in E as (? & x & b & l1 & b' & ? & Hb & Hl & Hs1 & _).
    simplify_eq. rewrite Hl0 in Hl. simplify_eq.
    rewrite Hs1 in Hs. by destruct Hs.
  - apply RepayLoan_inv in E
      as (? & x & r & b & l1 & b' & ? & _ & Hb & Hl & Hs1 & _).
    simplify_eq. rewrite Hl0 in Hl. simplify_eq.
    rewrite Hs1 in Hs. by destruct Hs.
  - by apply read_inv in E as (? & ? & _ & _ & _ & ->).
  - apply MarkAsDefaulted_inv in E as (? & b & l1 & b' & ? & Hb & Hl & Hs1 & _).
    simplify_eq. rewrite Hl0 in Hl. simplify_eq.
    rewrite Hs1 in Hs. by destruct Hs.
  - apply AddCollateral_inv in E as (? & x & b & l1 & b' & ? & Hb & Hl & Hs1 & _).
    simplify_eq. rewrite Hl0 in Hl. simplify_eq.
    destruct Hs as [Hs|Hs]; rewrite Hs in Hs1; by destruct Hs1.
  - by apply read_inv in E as (? & ? & _ & _ & _ & ->).
Qed.

(** What a successful [MarkAsDefaulted] stores: the flag set, the status
    [Defaulted], one more audit entry, and the balance as it was. *)
Theorem MarkAsDefaulted_marks (stub stub' : World) id l p :
  stored stub id = Some l →
  MarkAsDefaulted stub [id] = (shim_Success p, stub') →
  ∃ l',
    stored stub' id = Some l' ∧ Status l = "Active" ∧
    Defaulted l' = true ∧ Status l' = "Defaulted" ∧
    RemainingBalance l' = RemainingBalance l ∧
    AuditHistory l' = (AuditHistory l ++ ["Loan Defaulted"])%list.
Proof.
  intros (b0 & Hb0 & Hl0)%stored_Some E.
  apply MarkAsDefaulted_inv in E
    as (? & b & l1 & b' & ? & Hb & Hl & Hs & Hm & -> & _).
  simplify_eq. rewrite Hl0 in Hl. simplify_eq.
  exists (defaulted l1). split_and!; try done. by apply stored_insert.
Qed.

End More.

Section Locality.
Context {L : Lib}.

Ltac solve_local H :=
  unfold GetState, PutState; rewrite ?H;
  repeat (first [ case_match | case_decide ]; simplify_eq; simpl;
          rewrite ?lookup_insert_eq; try done);
  try (split; [reflexivity | congruence]).

(** The answer to a call, and what it stores under its key, depend on the
    ledger only through the entry of that key. *)
Theorem Invoke_depends_on_key (stub1 stub2 : World) function id rest :
  stub1 !! id = stub2 !! id →
  (Invoke stub1 function (id :: rest)).1 =
  (Invoke stub2 function (id :: rest)).1 ∧
  (Invoke stub1 function (id :: rest)).2 !! id =
  (Invoke stub2 function (id :: rest)).2 !! id.
Proof.
  intros H. unfold Invoke. repeat case_decide.
  - unfold RequestLoan. solve_local H.
  - unfold ApproveLoan. solve_local H.
  - unfold DisburseLoan. solve_local H.
  - unfold RepayLoan. solve_local H.
  - unfold CheckLoanStatus. solve_local H.
  - unfold MarkAsDefaulted. solve_local H.
  - unfold AddCollateral. solve_local H.
  - unfold GetLoanHistory. solve_local H.
  - done.
Qed.

End Locality.

(** *** The sample library meets the guarantees *)

Lemma ref_lib_spec : LibSpec ref_lib.
Proof.
  split; simpl; unfold ref_Marshal.
  - intros l. by destruct (floats_finite l).
  - intros l b H. destruct (floats_finite l) eqn:E; simplify_eq. by rewrite E.
  - intros l b H. destruct (floats_finite b) eqn:E; by simplify_eq.
Qed.

(** *** The statements above, on concrete calls *)

Lemma Invoke_failure_writes_nothing_witness :
  is_Success
    (Invoke (L := ref_lib) (ledger_after requested)
       "RepayLoan" ["L1"; "100"]).1 = false ∧
  (Invoke (L := ref_lib) (ledger_after requested)
     "RepayLoan" ["L1"; "100"]).2 = ledger_after requested.
Proof.
  split; [vm_compute; reflexivity|].
  apply (Invoke_failure_writes_nothing (L := ref_lib)).
  vm_compute. reflexivity.
Defined.



Lemma RequestLoan_overwrites_existing_witness :
  ∃ stub',
    RequestLoan (L := ref_lib) (ledger_after disbursed_txs)
      ["L1"; "B2"; "500"; "6"] = (shim_Success None, stub') ∧
    stored (L := ref_lib) stub' "L1" = Some (new_loan "L1" "B2" 500%float 6).
Proof.
  apply (RequestLoan_overwrites_existing (L := ref_lib) (LS := ref_lib_spec)).
  - exists active_loan. vm_compute. reflexivity.
  - vm_compute. reflexivity.
  - vm_compute. reflexivity.
  - vm_compute. reflexivity.
Defined.

Lemma RequestLoan_reopens_closed_loan_witness :
  ∃ stub' l',
    RequestLoan (L := ref_lib) (ledger_after repaid_txs)
      ["L1"; "B1"; "1000"; "12"] = (shim_Success None, stub') ∧
    stored (L := ref_lib) stub' "L1" = Some l' ∧ Status l' = "Pending" ∧
    Status l' ≠ "Repaid" ∧ ¬ lifecycle_edge "Repaid" (Status l').
Proof.
  refine (RequestLoan_reopens_closed_loan (L := ref_lib) (LS := ref_lib_spec)
            (ledger_after repaid_txs) "L1" repaid_loan
            "B1" "1000" "12" _ _ _ _ _ _ _).
  - vm_compute. reflexivity.
  - left. reflexivity.
  - vm_compute. reflexivity.
  - vm_compute. reflexivity.
  - vm_compute. reflexivity.
Defined.

Lemma RepayLoan_400_then_700_witness :
  ∃ stub' l,
    run (L := ref_lib) ∅
      [("RequestLoan", ["L1"; "B1"; "1000"; "12"]);
       ("ApproveLoan", ["L1"; "LEN1"]);
       ("DisburseLoan", ["L1"; "2024-01-01"]);
       ("RepayLoan", ["L1"; "400"]);
       ("RepayLoan", ["L1"; "700"])] =
    ([shim_Success None; shim_Success None; shim_Success None;
      shim_Success None; shim_Success None], stub') ∧
    stored (L := ref_lib) stub' "L1" = Some l ∧
    Status l = "Repaid" ∧
    RemainingBalance l = (-100)%float ∧
    (RemainingBalance l <? 0)%float = true.
Proof.
  apply (RepayLoan_400_then_700 (L := ref_lib) (LS := ref_lib_spec) ∅);
    vm_compute; reflexivity.
Defined.


Lemma Invoke_frame_witness :
  (Invoke (L := ref_lib) (ledger_after disbursed_txs)
     "RequestLoan" ["L2"; "B2"; "500"; "6"]).2 !! "L1" =
  ledger_after disbursed_txs !! "L1".
Proof.
  apply (Invoke_frame (L := ref_lib) (ledger_after disbursed_txs) _
           "RequestLoan" "L2" ["B2"; "500"; "6"]
           (Invoke (L := ref_lib) (ledger_after disbursed_txs)
              "RequestLoan" ["L2"; "B2"; "500"; "6"]).1 "L1").
  - vm_compute. reflexivity.
  - vm_compute. discriminate.
Defined.

Lemma Invoke_status_follows_edge_witness :
  ∃ l',
    stored (L := ref_lib)
      (Invoke (L := ref_lib) (ledger_after disbursed_txs)
         "MarkAsDefaulted" ["L1"]).2 "L1" = Some l' ∧
    (Status l' = "Active" ∨ lifecycle_edge "Active" (Status l')).
Proof.
  apply (Invoke_status_follows_edge (L := ref_lib) (LS := ref_lib_spec)
           (ledger_after disbursed_txs) _ "MarkAsDefaulted" "L1" [] None
           active_loan).
  - vm_compute. discriminate.
  - vm_compute. reflexivity.
  - vm_compute. reflexivity.
Defined.

Lemma RepayLoan_stores_difference_witness :
  ∃ l',
    stored (L := ref_lib)
      (RepayLoan (L := ref_lib) (ledger_after disbursed_txs)
         ["L1"; "1100"]).2 "L1" = Some l' ∧
    RemainingBalance l' = (1000 - 1100)%float ∧
    Status l' = "Repaid" ∧
    AuditHistory l' =
    ["Loan Approved"; "Loan Disbursed"; "Repayment of 1100.000000 made"].
Proof.
  apply (RepayLoan_stores_difference (L := ref_lib) (LS := ref_lib_spec)
           (ledger_after disbursed_txs) _ "L1" "1100" 1100%float active_loan).
  - vm_compute. reflexivity.
  - vm_compute. reflexivity.
  - vm_compute. reflexivity.
Defined.

Lemma RepayLoan_zero_witness :
  ∃ stub' l',
    RepayLoan (L := ref_lib) (ledger_after disbursed_txs) ["L1"; "0"] =
    (shim_Success None, stub') ∧
    stored (L := ref_lib) stub' "L1" = Some l' ∧
    RemainingBalance l' = 1000%float ∧ Status l' = "Active" ∧
    length (AuditHistory l') = 3.
Proof.
  apply (RepayLoan_zero (L := ref_lib) (LS := ref_lib_spec)
           (ledger_after disbursed_txs) "L1" "0" active_loan).
  - vm_compute. reflexivity.
  - vm_compute. reflexivity.
  - vm_compute. reflexivity.
  - vm_compute. reflexivity.
Defined.

Lemma RepayLoan_NaN_witness :
  RepayLoan (L := ref_lib) (ledger_after disbursed_txs) ["L1"; "NaN"] =
  (shim_Error "Error marshalling loan object", ledger_after disbursed_txs).
Proof.
  apply (RepayLoan_NaN (L := ref_lib) (LS := ref_lib_spec)
           (ledger_after disbursed_txs) "L1" "NaN" active_loan).
  - vm_compute. reflexivity.
  - vm_compute. reflexivity.
  - vm_compute. reflexivity.
Defined.

Lemma RepayLoan_keeps_upper_bound_witness :
  ∃ l',
    stored (L := ref_lib)
      (RepayLoan (L := ref_lib) (ledger_after disbursed_txs)
         ["L1"; "400"]).2 "L1" = Some l' ∧
    Amount l' = 1000%float ∧
    (RemainingBalance l' <=? Amount l')%float = true.
Proof.
  apply (RepayLoan_keeps_upper_bound (L := ref_lib) (LS := ref_lib_spec)
           (ledger_after disbursed_txs) _ "L1" "400" 400%float active_loan).
  - vm_compute. reflexivity.
  - vm_compute. reflexivity.
  - vm_compute. reflexivity.
  - vm_compute. reflexivity.
  - vm_compute. reflexivity.
Defined.


Lemma Invoke_terminal_state_witness :
  (Invoke (L := ref_lib) (ledger_after repaid_txs)
     "GetLoanHistory" ["L1"]).2 = ledger_after repaid_txs.
Proof.
  apply (Invoke_terminal_state (L := ref_lib)
           (ledger_after repaid_txs) _ "GetLoanHistory" "L1" []
           (Some repaid_loan) repaid_loan).
  - vm_compute. discriminate.
  - vm_compute. reflexivity.
  - left. reflexivity.
  - vm_compute. reflexivity.
Defined.

Lemma Invoke_depends_on_key_witness :
  (Invoke (L := ref_lib) (ledger_after disbursed_txs)
     "RepayLoan" ["L1"; "400"]).1 =
  (Invoke (L := ref_lib) (<["L2" := repaid_loan]> (ledger_after disbursed_txs))
     "RepayLoan" ["L1"; "400"]).1 ∧
  (Invoke (L := ref_lib) (ledger_after disbursed_txs)
     "RepayLoan" ["L1"; "400"]).2 !! "L1" =
  (Invoke (L := ref_lib) (<["L2" := repaid_loan]> (ledger_after disbursed_txs))
     "RepayLoan" ["L1"; "400"]).2 !! "L1".
Proof.
  apply (Invoke_depends_on_key (L := ref_lib)
           (ledger_after disbursed_txs)
           (<["L2" := repaid_loan]> (ledger_after disbursed_txs))
           "RepayLoan" "L1" ["400"]).
  vm_compute. reflexivity.
Defined.

Lemma MarkAsDefaulted_marks_witness :
  ∃ l',
    stored (L := ref_lib)
      (MarkAsDefaulted (L := ref_lib) (ledger_after disbursed_txs)
         ["L1"]).2 "L1" = Some l' ∧
    Status active_loan = "Active" ∧
    Defaulted l' = true ∧ Status l' = "Defaulted" ∧
    RemainingBalance l' = 1000%float ∧
    AuditHistory l' = ["Loan Approved"; "Loan Disbursed"; "Loan Defaulted"].
Proof.
  apply (MarkAsDefaulted_marks (L := ref_lib) (LS := ref_lib_spec)
           (ledger_after disbursed_txs) _ "L1" active_loan None).
  - vm_compute. reflexivity.
  - vm_compute. reflexivity.
Defined.


End LoanContractProofs.

(** ** [SmartContract] *)

Module SmartContractProofs.
Import SmartContract.

Ltac open_op :=
  unfold GetState, PutState in *;
  repeat (first [ case_match | case_decide ]; simplify_eq/=; try done).

Abbreviation World := (gmap string bytes).

Section Facts.
Context {L : Lib}.

Lemma SC_stored_Some (stub : World) id l :
  stored stub id = Some l ↔
  ∃ b, stub !! id = Some b ∧ json_Unmarshal b = Ok l.
Proof.
  unfold stored. split.
  - intros H. open_op. eauto.
  - intros (b & -> & ->). done.
Qed.



Lemma SC_RepayLoan_inv (stub stub' : World) id amount :
  RepayLoan stub id amount = (None, stub') →
  ∃ b l b',
    stub !! id = Some b ∧ json_Unmarshal b = Ok l ∧ Status l = "Active" ∧
    json_Marshal (repaid amount l) = Ok b' ∧ stub' = <[id := b']> stub.
Proof.
  unfold RepayLoan, repaid. intros H. unfold GetState, PutState in *.
  repeat (first [ case_match | case_decide ]; simplify_eq; try done).
  all: eexists _, _, _; split_and!; eauto; try (by apply dec_stable).
  all: match goal with H : (_ <=? _)%float = _ |- _ => by rewrite H end.
Qed.

Lemma SC_RequestLoan_failure (stub stub' : World) id borrower amount rate
    duration m :
  RequestLoan stub id borrower amount rate duration = (Some m, stub') →
  stub' = stub.
Proof. unfold RequestLoan. intros H. by open_op. Qed.

Lemma SC_ApproveLoan_failure (stub stub' : World) id lender m :
  ApproveLoan stub id lender = (Some m, stub') → stub' = stub.
Proof. unfold ApproveLoan. intros H. by open_op. Qed.

Lemma SC_RepayLoan_failure (stub stub' : World) id amount m :
  RepayLoan stub id amount = (Some m, stub') → stub' = stub.
Proof.
  unfold RepayLoan. intros H. unfold GetState, PutState in *.
  by repeat (first [ case_match | case_decide ]; simplify_eq; try done).
Qed.

End Facts.

Section FactsJSON.
Context {L : Lib} {LS : LibSpec L}.

Local Open Scope float_scope.



Lemma SC_stored_finite (stub : World) id l :
  stored stub id = Some l → floats_finite l = true.
Proof. intros (b & _ & Hl)%SC_stored_Some. by eapply Unmarshal_finite. Qed.

Lemma SC_stored_insert (stub : World) id l b :
  json_Marshal l = Ok b → stored (<[id := b]> stub) id = Some l.
Proof.
  intros H. unfold stored. rewrite lookup_insert_eq.
  by rewrite (Unmarshal_Marshal _ _ H).
Qed.



(** This [RepayLoan] does reset the balance: after a successful call the
    record stored has balance 0 and status [Repaid] when the difference
    is [<= 0], and the difference and status [Active] otherwise. *)
Theorem SC_RepayLoan_clamps (stub stub' : World) id r l :
  stored stub id = Some l →
  RepayLoan stub id r = (None, stub') →
  ∃ l',
    stored stub' id = Some l' ∧
    if RemainingBalance l - r <=? 0
    then RemainingBalance l' = 0 ∧ Status l' = "Repaid"
    else RemainingBalance l' = RemainingBalance l - r ∧ Status l' = "Active".
Proof.
  intros (b0 & Hb0 & Hl0)%SC_stored_Some
    (b & l0 & b' & Hb & Hl & Hs & Hm & ->)%SC_RepayLoan_inv.
  rewrite Hb0 in Hb. simplify_eq. rewrite Hl0 in Hl. simplify_eq.
  exists (repaid r l0). split; [by apply SC_stored_insert|].
  unfold repaid. simpl. by case_match.
Qed.


(** A call of this program that returns an error returns the ledger it
    was given. *)
Theorem SC_failure_writes_nothing (stub stub' : World) m :
  (∃ id borrower amount rate duration,
     RequestLoan stub id borrower amount rate duration = (Some m, stub')) ∨
  (∃ id lender, ApproveLoan stub id lender = (Some m, stub')) ∨
  (∃ id amount, RepayLoan stub id amount = (Some m, stub')) →
  stub' = stub.
Proof.
  intros [(? & ? & ? & ? & ? & H)|[(? & ? & H)|(? & ? & H)]];
    eauto using SC_RequestLoan_failure, SC_ApproveLoan_failure,
      SC_RepayLoan_failure.
Qed.



End FactsJSON.

Section Query.
Context {L : Lib}.

(** [QueryLoan] returns the record stored under the key, decoded, and
    fails when the key is absent or its bytes do not decode. *)
Theorem QueryLoan_stored (stub : World) id :
  match QueryLoan stub id with
  | Ok l => stored stub id = Some l
  | Err _ => stored stub id = None
  end.
Proof.
  unfold QueryLoan, stored, GetState.
  destruct (stub !! id) as [b|]; [|done].
  by destruct (json_Unmarshal b).
Qed.

End Query.

Lemma SC_ref_lib_spec : LibSpec ref_lib.
Proof.
  split; simpl; unfold ref_Marshal.
  - intros l. by destruct (floats_finite l).
  - intros l b H. destruct (floats_finite l) eqn:E; simplify_eq. by rewrite E.
  - intros l b H. destruct (floats_finite b) eqn:E; by simplify_eq.
Qed.


(** The same on this program: from an [Active] loan of 1000, the amount
    [-50] is accepted and the balance stored is 1050. *)
Lemma SC_RepayLoan_negative_amount_raises_balance :
  RepayLoan (L := ref_lib) {["L1" := active_loan 1000]} "L1" (-50) =
  (None, {["L1" := active_loan 1050]}) ∧
  (RemainingBalance (active_loan 1050) <=? Amount (active_loan 1050))%float =
  false.
Proof. split; vm_compute; reflexivity. Qed.

(** The two repayments of 400 and 700 on a loan of 1000, with this
    program: the balance ends at 0 and the status at [Repaid]. *)
Lemma SC_RepayLoan_400_then_700 :
  RepayLoan (L := ref_lib) {["L1" := active_loan 1000]} "L1" 400 =
  (None, {["L1" := active_loan 600]}) ∧
  RepayLoan (L := ref_lib) {["L1" := active_loan 600]} "L1" 700 =
  (None, {["L1" := set_RemainingBalance 0
                     (set_Status "Repaid" (active_loan (-100)))]}) ∧
  RemainingBalance
    (set_RemainingBalance 0 (set_Status "Repaid" (active_loan (-100)))) =
  0%float.
Proof. split_and!; vm_compute; reflexivity. Qed.

Lemma SC_RepayLoan_clamps_witness :
  ∃ l',
    stored (L := ref_lib)
      (RepayLoan (L := ref_lib) {["L1" := active_loan 600]} "L1" 700).2 "L1" =
    Some l' ∧
    RemainingBalance l' = 0%float ∧ Status l' = "Repaid".
Proof.
  apply (SC_RepayLoan_clamps (L := ref_lib) (LS := SC_ref_lib_spec)
           {["L1" := active_loan 600]} _ "L1" 700%float (active_loan 600)).
  - vm_compute. reflexivity.
  - vm_compute. reflexivity.
Defined.


Lemma SC_failure_writes_nothing_witness :
  (ApproveLoan (L := ref_lib) {["L1" := active_loan 600]} "L1" "LEN2").2 =
  {["L1" := active_loan 600]}.
Proof.
  apply (SC_failure_writes_nothing (L := ref_lib)
           {["L1" := active_loan 600]} _
           "loan with ID L1 is not in Pending status").
  right. left. exists "L1", "LEN2". vm_compute. reflexivity.
Defined.



End SmartContractProofs.
